(** * Mergington High School activities API: the activity registry

    A shallow embedding of [src/app.py]: the in-memory [activities]
    dictionary and the three request handlers that read or mutate it
    ([get_activities], [signup_for_activity], [unregister_from_activity]),
    followed by the properties of the registry stated in the
    specification. The [reset_activities] fixture of [tests/test_app.py]
    is embedded too, with the properties of the handlers and of the
    fixture that the code itself shows. *)

From stdpp Require Import gmap strings list fin_maps.
From Stdlib Require Import ZArith.

(** ** Data model *)

(** One value of the [activities] dictionary: a dictionary with the four
    keys "description", "schedule", "max_participants", "participants". *)
Record Activity := mkActivity {
  description : string;
  schedule : string;
  max_participants : Z;
  participants : list string
}.

(** The exceptions a handler can end with. [HTTPException] is the one the
    handlers raise on purpose; [KeyError] is what [d[k]] raises on a
    missing key and [ValueError] what [list.remove] raises on a missing
    element. *)
Inductive exn :=
| HTTPException (status_code : Z) (detail : string)
| KeyError (key : string)
| ValueError.

Inductive outcome (A : Type) :=
| Return (a : A)
| Raise (e : exn).
Arguments Return {A} a.
Arguments Raise {A} e.

(** The JSON body [{"message": ...}] of a successful signup or unregister. *)
Record response := mkResponse { message : string }.

(** The four errors of the specification's taxonomy, as the exceptions
    the handlers raise for them. *)
Definition NotFound : exn :=
  HTTPException 404 "Activity not found".
Definition AlreadyEnrolled : exn :=
  HTTPException 400 "Student already signed up for this activity".
Definition CapacityExceeded : exn :=
  HTTPException 400 "This activity is full".
Definition ParticipantNotFound : exn :=
  HTTPException 404 "Student not found in activity".

(** ** Python list operations used by the handlers *)
Module PyList.

(** [x in l] *)
Definition contains (x : string) (l : list string) : bool :=
  bool_decide (x ∈ l).

(** [len(l)] *)
Definition len (l : list string) : Z := Z.of_nat (length l).

(** [l.append(x)] *)
Definition append (l : list string) (x : string) : list string :=
  l ++ [x].

(** [l.remove(x)]: drops the first element equal to [x]; [None] stands
    for the [ValueError] raised when there is none. *)
Fixpoint remove (x : string) (l : list string) : option (list string) :=
  match l with
  | [] => None
  | y :: l' =>
      if decide (y = x) then Some l'
      else match remove x l' with
           | Some r => Some (y :: r)
           | None => None
           end
  end.

End PyList.

(** ** Handlers as state transformers over the module-level dictionary *)

(** A handler runs against the global [activities] dictionary, may mutate
    it, and either returns a value or raises. *)
Definition handler (A : Type) : Type :=
  gmap string Activity → outcome A * gmap string Activity.

Definition ret {A} (a : A) : handler A := λ σ, (Return a, σ).

Definition raise {A} (e : exn) : handler A := λ σ, (Raise e, σ).

Definition bind {A B} (m : handler A) (k : A → handler B) : handler B :=
  λ σ, match m σ with
       | (Return a, σ') => k a σ'
       | (Raise e, σ') => (Raise e, σ')
       end.

#[global] Instance handler_ret : MRet handler := @ret.
#[global] Instance handler_bind : MBind handler := λ A B k m, bind m k.

(** [activity = activities[name]] binds a reference to the record stored
    in the dictionary, not a copy: a later [activity["participants"]] reads
    the stored record, and [.append] / [.remove] mutate it in place. A
    reference is modelled by the key under which the record is stored. *)
Abbreviation ref := string (only parsing).

(** [name in activities] *)
Definition dict_contains (name : string) : handler bool :=
  λ σ, (Return (bool_decide (is_Some (σ !! name))), σ).

(** [activities[name]] *)
Definition dict_getitem (name : string) : handler ref :=
  λ σ, match σ !! name with
       | Some _ => (Return name, σ)
       | None => (Raise (KeyError name), σ)
       end.

(** [activity["participants"]] *)
Definition get_participants (activity : ref) : handler (list string) :=
  λ σ, match σ !! activity with
       | Some a => (Return (participants a), σ)
       | None => (Raise (KeyError activity), σ)
       end.

(** [activity["max_participants"]] *)
Definition get_max_participants (activity : ref) : handler Z :=
  λ σ, match σ !! activity with
       | Some a => (Return (max_participants a), σ)
       | None => (Raise (KeyError activity), σ)
       end.

(** The record [a] with its participants list replaced. *)
Definition with_participants (a : Activity) (ps : list string) : Activity :=
  {| description := description a;
     schedule := schedule a;
     max_participants := max_participants a;
     participants := ps |}.

(** [activity["participants"].append(email)] *)
Definition participants_append (activity : ref) (email : string) : handler () :=
  λ σ, match σ !! activity with
       | Some a =>
           (Return (),
            <[activity := with_participants a (PyList.append (participants a) email)]> σ)
       | None => (Raise (KeyError activity), σ)
       end.

(** [activity["participants"].remove(email)] *)
Definition participants_remove (activity : ref) (email : string) : handler () :=
  λ σ, match σ !! activity with
       | Some a =>
           match PyList.remove email (participants a) with
           | Some ps => (Return (), <[activity := with_participants a ps]> σ)
           | None => (Raise ValueError, σ)
           end
       | None => (Raise (KeyError activity), σ)
       end.

(** ** The seed data *)

Definition activities : gmap string Activity :=
  <["Chess Club" := mkActivity
      "Learn strategies and compete in chess tournaments"
      "Fridays, 3:30 PM - 5:00 PM"
      12 ["michael@mergington.edu"; "daniel@mergington.edu"]]>
  (<["Programming Class" := mkActivity
      "Learn programming fundamentals and build software projects"
      "Tuesdays and Thursdays, 3:30 PM - 4:30 PM"
      20 ["emma@mergington.edu"; "sophia@mergington.edu"]]>
  (<["Gym Class" := mkActivity
      "Physical education and sports activities"
      "Mondays, Wednesdays, Fridays, 2:00 PM - 3:00 PM"
      30 ["john@mergington.edu"; "olivia@mergington.edu"]]>
  (<["Basketball Team" := mkActivity
      "Competitive basketball training and matches"
      "Mondays and Wednesdays, 4:00 PM - 5:30 PM"
      15 ["james@mergington.edu"]]>
  (<["Tennis Club" := mkActivity
      "Tennis lessons and tournament preparation"
      "Tuesdays and Thursdays, 4:00 PM - 5:00 PM"
      10 ["alex@mergington.edu"]]>
  (<["Debate Team" := mkActivity
      "Develop critical thinking and public speaking skills"
      "Wednesdays, 3:30 PM - 5:00 PM"
      16 ["sarah@mergington.edu"; "marcus@mergington.edu"]]>
  (<["Science Club" := mkActivity
      "Explore scientific experiments and research projects"
      "Fridays, 4:00 PM - 5:30 PM"
      18 ["lisa@mergington.edu"]]>
  (<["Art Studio" := mkActivity
      "Painting, drawing, and visual arts creation"
      "Mondays and Thursdays, 3:30 PM - 5:00 PM"
      14 ["nina@mergington.edu"; "carlos@mergington.edu"]]>
  (<["Music Band" := mkActivity
      "Learn instruments and perform in concerts"
      "Tuesdays and Fridays, 3:30 PM - 4:30 PM"
      25 ["david@mergington.edu"]]>
  ∅)))))))).

(** ** The request handlers *)

(** [GET /activities] *)
Definition get_activities : handler (gmap string Activity) :=
  λ σ, (Return σ, σ).

(** [POST /activities/{activity_name}/signup] *)
Definition signup_for_activity (activity_name email : string) : handler response :=
  known ← dict_contains activity_name;
  if negb known then raise (HTTPException 404 "Activity not found") else
  activity ← dict_getitem activity_name;
  ps ← get_participants activity;
  if PyList.contains email ps then
    raise (HTTPException 400 "Student already signed up for this activity")
  else
  ps ← get_participants activity;
  cap ← get_max_participants activity;
  if (PyList.len ps >=? cap)%Z then
    raise (HTTPException 400 "This activity is full")
  else
  participants_append activity email;;
  mret (mkResponse ("Signed up " +:+ (email +:+ (" for " +:+ activity_name)))).

(** [DELETE /activities/{activity_name}/participants] *)
Definition unregister_from_activity (activity_name email : string) : handler response :=
  known ← dict_contains activity_name;
  if negb known then raise (HTTPException 404 "Activity not found") else
  activity ← dict_getitem activity_name;
  ps ← get_participants activity;
  if negb (PyList.contains email ps) then
    raise (HTTPException 404 "Student not found in activity")
  else
  participants_remove activity email;;
  mret (mkResponse ("Removed " +:+ (email +:+ (" from " +:+ activity_name)))).

(** [GET /]: a redirect to the static index page; the dictionary is not
    touched. *)
Definition root : handler string := mret "/static/index.html"%string.

(** The requests the service answers, and the dictionary after one of
    them has been handled. *)
Inductive request :=
| GetRoot
| GetActivities
| PostSignup (activity_name email : string)
| DeleteParticipant (activity_name email : string).

Definition step (r : request) (σ : gmap string Activity) : gmap string Activity :=
  match r with
  | GetRoot => (root σ).2
  | GetActivities => (get_activities σ).2
  | PostSignup n e => (signup_for_activity n e σ).2
  | DeleteParticipant n e => (unregister_from_activity n e σ).2
  end.

(** The dictionaries the running service can hold: the seed data, and
    whatever a handled request leaves behind. *)
Inductive reachable : gmap string Activity → Prop :=
| reachable_seed : reachable activities
| reachable_step r σ : reachable σ → reachable (step r σ).

(** Signing up the emails of a list one after the other, as the capacity
    test does: the outcomes in order, and the final dictionary. *)
Fixpoint signup_each (activity_name : string) (emails : list string)
    (σ : gmap string Activity) : list (outcome response) * gmap string Activity :=
  match emails with
  | [] => ([], σ)
  | e :: es =>
      let '(o, σ1) := signup_for_activity activity_name e σ in
      let '(os, σ2) := signup_each activity_name es σ1 in
      (o :: os, σ2)
  end.

(** ** The routes, and a client session *)

(** What a route sends back: the redirect of [GET /], the dictionary of
    [GET /activities], or the message of a signup or unregister. *)
Inductive reply :=
| Redirect (url : string)
| Listing (d : gmap string Activity)
| Message (r : response).

(** The route decorators: each request runs the handler registered for
    its method and path. *)
Definition handle (r : request) : handler reply :=
  match r with
  | GetRoot => url ← root; mret (Redirect url)
  | GetActivities => d ← get_activities; mret (Listing d)
  | PostSignup n e => m ← signup_for_activity n e; mret (Message m)
  | DeleteParticipant n e => m ← unregister_from_activity n e; mret (Message m)
  end.

(** The activity a request can mutate, if any. *)
Definition target (r : request) : option string :=
  match r with
  | PostSignup n _ | DeleteParticipant n _ => Some n
  | GetRoot | GetActivities => None
  end.

(** The dictionary after a client has sent the requests of a list, first
    to last (the body of a test). *)
Definition run_requests (rs : list request) (σ : gmap string Activity) :
    gmap string Activity :=
  foldl (λ s r, step r s) σ rs.

(** The seats still free in an activity: how far the roster is below the
    capacity, none when it is at or above it. *)
Definition free_seats (a : Activity) : nat :=
  Z.to_nat (max_participants a - PyList.len (participants a)).

(** The message of a successful signup. *)
Definition signed_up (activity_name email : string) : outcome response :=
  Return (mkResponse ("Signed up " +:+ (email +:+ (" for " +:+ activity_name)))).

(** ** The [reset_activities] fixture of the tests *)

(** Before the test: [original_state], a fresh dictionary with, under
    every name, a fresh record holding the four fields and a copy of the
    participants list. *)
Definition original_state (σ : gmap string Activity) : gmap string Activity :=
  (λ details,
     {| description := description details;
        schedule := schedule details;
        max_participants := max_participants details;
        participants := participants details |}) <$> σ.

(** [activities[name]["participants"] = ps] *)
Definition set_participants (name : string) (ps : list string) : handler () :=
  λ σ, match σ !! name with
       | Some a => (Return (), <[name := with_participants a ps]> σ)
       | None => (Raise (KeyError name), σ)
       end.

(** After the test: the loop over [original_state.items()], given as the
    list of items in the order the loop visits them. *)
Fixpoint restore (items : list (string * Activity)) : handler () :=
  match items with
  | [] => mret ()
  | (name, details) :: rest =>
      set_participants name (participants details);;
      restore rest
  end.

(** ** Predicates of the specification *)

(** The data-model invariant of one record and of the whole dictionary. *)
Definition activity_ok (a : Activity) : Prop :=
  NoDup (participants a) ∧ (PyList.len (participants a) ≤ max_participants a)%Z.

Definition registry_ok (σ : gmap string Activity) : Prop :=
  ∀ name a, σ !! name = Some a → activity_ok a.

(** [s] occurs in [t] (Python's [s in t] on strings). *)
Definition occurs_in (s t : string) : Prop :=
  ∃ pre post, t = pre +:+ (s +:+ post).

Definition is_Return {A} (o : outcome A) : Prop :=
  match o with Return _ => True | Raise _ => False end.

(** The set of emails of a roster. *)
Definition roster_set (ps : list string) : gset string := list_to_set ps.

(** Two records that agree on description, schedule and capacity. *)
Definition same_static (a b : Activity) : Prop :=
  description a = description b ∧ schedule a = schedule b ∧
  max_participants a = max_participants b.

(** ** Example dictionaries and inputs *)

(** A small dictionary where a full activity already lists the student:
    both the duplicate check and the capacity check would reject. *)
Definition full_house : gmap string Activity :=
  {[ "Duo" := mkActivity "Two seats" "Never" 2 ["ann@mergington.edu"; "bob@mergington.edu"] ]}.

(** The capacity test of the repository: nine fillers, then one more. *)
Definition fillers : list string :=
  [ "filler0@mergington.edu"; "filler1@mergington.edu"; "filler2@mergington.edu";
    "filler3@mergington.edu"; "filler4@mergington.edu"; "filler5@mergington.edu";
    "filler6@mergington.edu"; "filler7@mergington.edu"; "filler8@mergington.edu" ].

(** ** Facts about the list operations *)

Section list_facts.
Implicit Types (x y : string) (l r : list string).

Lemma contains_true x l : PyList.contains x l = true ↔ x ∈ l.
Proof. unfold PyList.contains. apply bool_decide_eq_true. Qed.

Lemma contains_false x l : PyList.contains x l = false ↔ x ∉ l.
Proof. unfold PyList.contains. apply bool_decide_eq_false. Qed.

(** [remove] succeeds exactly on the lists that hold the element, and
    then cuts out its first occurrence. *)
Lemma remove_spec x l r :
  PyList.remove x l = Some r ↔
  ∃ l1 l2, l = l1 ++ (x :: l2) ∧ (x ∉ l1) ∧ r = l1 ++ l2.
Proof.
  revert r. induction l as [|y l IH]; intros r; simpl.
  - split; [discriminate|]. intros (l1 & l2 & Hl & _).
    by destruct l1.
  - destruct (decide (y = x)) as [->|Hne].
    + split.
      * intros [= <-]. exists [], l. split_and!; [done| |done].
        apply not_elem_of_nil.
      * intros (l1 & l2 & Hl & Hx & ->).
        destruct l1 as [|z l1]; simpl in *.
        -- by injection Hl as ->.
        -- injection Hl as <- _. exfalso. apply Hx. left.
    + destruct (PyList.remove x l) as [r'|] eqn:Hrm.
      * split.
        -- intros [= <-].
           destruct (proj1 (IH r') eq_refl) as (l1 & l2 & -> & Hx & ->).
           exists (y :: l1), l2. split_and!; [done| |done].
           rewrite not_elem_of_cons. split; [congruence|done].
        -- intros (l1 & l2 & Hl & Hx & ->).
           destruct l1 as [|z l1]; simpl in *.
           ++ injection Hl as -> _. done.
           ++ injection Hl as <- ->. f_equal. f_equal.
              apply not_elem_of_cons in Hx as [_ Hx].
              assert (Some r' = Some (l1 ++ l2)) as [= ->]; [|done].
              apply IH. by exists l1, l2.
      * split; [discriminate|].
        intros (l1 & l2 & Hl & Hx & ->).
        destruct l1 as [|z l1]; simpl in *.
        -- injection Hl as -> _. done.
        -- injection Hl as <- ->.
           apply not_elem_of_cons in Hx as [_ Hx].
           assert (None = Some (l1 ++ l2)) as Habs; [|discriminate].
           apply IH. by exists l1, l2.
Qed.

Lemma remove_is_Some x l : x ∈ l → is_Some (PyList.remove x l).
Proof.
  induction 1 as [x l|x y l _ IH]; simpl.
  - rewrite decide_True; [eauto|done].
  - destruct (decide (y = x)); [eauto|].
    destruct IH as [r ->]. eauto.
Qed.

Lemma remove_None x l : PyList.remove x l = None ↔ x ∉ l.
Proof.
  split.
  - intros Hn Hin. apply remove_is_Some in Hin as [r Hr]. congruence.
  - intros Hnin. destruct (PyList.remove x l) as [r|] eqn:Hr; [|done].
    apply remove_spec in Hr as (l1 & l2 & -> & _). exfalso. apply Hnin.
    set_solver.
Qed.

Lemma remove_length x l r :
  PyList.remove x l = Some r → length l = S (length r).
Proof.
  intros (l1 & l2 & -> & _ & ->)%remove_spec.
  rewrite !length_app. simpl. lia.
Qed.

Lemma remove_Permutation x l r :
  PyList.remove x l = Some r → l ≡ₚ x :: r.
Proof.
  intros (l1 & l2 & -> & _ & ->)%remove_spec.
  by rewrite Permutation_middle.
Qed.

Lemma remove_NoDup x l r :
  NoDup l → PyList.remove x l = Some r → NoDup r ∧ x ∉ r.
Proof.
  intros Hnd Hr. apply remove_Permutation in Hr.
  rewrite Hr in Hnd. apply NoDup_cons in Hnd as [? ?]. done.
Qed.

Lemma append_NoDup x l : NoDup l → x ∉ l → NoDup (PyList.append l x).
Proof.
  intros Hnd Hx. unfold PyList.append. apply NoDup_app.
  split_and!; [done| |apply NoDup_singleton].
  intros y Hy ->%list_elem_of_singleton. done.
Qed.

Lemma append_len x l : PyList.len (PyList.append l x) = (PyList.len l + 1)%Z.
Proof. unfold PyList.len, PyList.append. rewrite length_app. simpl. lia. Qed.

Lemma occurs_in_mid (pre s post : string) : occurs_in s (pre +:+ (s +:+ post)).
Proof. by exists pre, post. Qed.

Lemma occurs_in_end (pre s : string) : occurs_in s (pre +:+ s).
Proof.
  exists pre, ""%string. f_equal.
  induction s as [|c s IH]; [done|].
  change (String c s = String c (s +:+ "")). by rewrite <- IH.
Qed.

Lemma string_app_assoc (s1 s2 s3 : string) :
  (s1 +:+ s2) +:+ s3 = s1 +:+ (s2 +:+ s3).
Proof.
  induction s1 as [|c s1 IH]; [done|].
  change (String c ((s1 +:+ s2) +:+ s3) = String c (s1 +:+ (s2 +:+ s3))).
  by rewrite IH.
Qed.

End list_facts.

(** ** What each handler computes *)

Section handler_facts.
Implicit Types (σ : gmap string Activity) (a : Activity).
Implicit Types (name email : string).

#[local] Arguments PyList.contains : simpl never.
#[local] Arguments PyList.len : simpl never.
#[local] Arguments PyList.remove : simpl never.

Lemma signup_unknown σ name email :
  σ !! name = None →
  signup_for_activity name email σ = (Raise NotFound, σ).
Proof.
  intros Hn. unfold signup_for_activity, mbind, handler_bind, bind, dict_contains.
  rewrite Hn. rewrite bool_decide_eq_false_2; [reflexivity|].
  apply is_Some_None.
Qed.

Lemma signup_known σ name email a :
  σ !! name = Some a →
  signup_for_activity name email σ =
    if PyList.contains email (participants a) then (Raise AlreadyEnrolled, σ)
    else if (PyList.len (participants a) >=? max_participants a)%Z
    then (Raise CapacityExceeded, σ)
    else (Return (mkResponse ("Signed up " +:+ (email +:+ (" for " +:+ name)))),
          <[name := with_participants a (participants a ++ [email])]> σ).
Proof.
  intros Hs.
  unfold signup_for_activity, mbind, handler_bind, bind, dict_contains,
    dict_getitem, get_participants, get_max_participants, participants_append.
  rewrite Hs. rewrite bool_decide_eq_true_2; [|by eexists].
  repeat (rewrite ?Hs; simpl).
  destruct (PyList.contains email (participants a)); [reflexivity|].
  repeat (rewrite ?Hs; simpl).
  destruct (PyList.len (participants a) >=? max_participants a)%Z;
    [reflexivity|].
  repeat (rewrite ?Hs; simpl). reflexivity.
Qed.

Lemma unregister_unknown σ name email :
  σ !! name = None →
  unregister_from_activity name email σ = (Raise NotFound, σ).
Proof.
  intros Hn.
  unfold unregister_from_activity, mbind, handler_bind, bind, dict_contains.
  rewrite Hn. rewrite bool_decide_eq_false_2; [reflexivity|].
  apply is_Some_None.
Qed.

Lemma unregister_known σ name email a :
  σ !! name = Some a →
  unregister_from_activity name email σ =
    if PyList.contains email (participants a) then
      match PyList.remove email (participants a) with
      | Some ps =>
          (Return (mkResponse ("Removed " +:+ (email +:+ (" from " +:+ name)))),
           <[name := with_participants a ps]> σ)
      | None => (Raise ValueError, σ)
      end
    else (Raise ParticipantNotFound, σ).
Proof.
  intros Hs.
  unfold unregister_from_activity, mbind, handler_bind, bind, dict_contains,
    dict_getitem, get_participants, participants_remove.
  rewrite Hs. rewrite bool_decide_eq_true_2; [|by eexists].
  repeat (rewrite ?Hs; simpl).
  destruct (PyList.contains email (participants a)); [|reflexivity].
  repeat (rewrite ?Hs; simpl).
  by destruct (PyList.remove email (participants a)).
Qed.

(** A handler that raises leaves the dictionary as it found it. *)
Lemma signup_raise_state σ name email e :
  (signup_for_activity name email σ).1 = Raise e →
  (signup_for_activity name email σ).2 = σ.
Proof.
  destruct (σ !! name) as [a|] eqn:Hs.
  - rewrite (signup_known _ _ _ _ Hs).
    destruct (PyList.contains _ _); [done|].
    destruct (_ >=? _)%Z; [done|]. discriminate.
  - by rewrite (signup_unknown _ _ _ Hs).
Qed.

Lemma unregister_raise_state σ name email e :
  (unregister_from_activity name email σ).1 = Raise e →
  (unregister_from_activity name email σ).2 = σ.
Proof.
  destruct (σ !! name) as [a|] eqn:Hs.
  - rewrite (unregister_known _ _ _ _ Hs).
    destruct (PyList.contains _ _); [|done].
    destruct (PyList.remove _ _); [discriminate|done].
  - by rewrite (unregister_unknown _ _ _ Hs).
Qed.

Lemma signup_lookup σ name email k :
  (signup_for_activity name email σ).2 !! k = σ !! k ∨
  (k = name ∧ ∃ a,
      σ !! k = Some a ∧ (email ∉ participants a) ∧
      (PyList.len (participants a) < max_participants a)%Z ∧
      (signup_for_activity name email σ).2 !! k =
        Some (with_participants a (participants a ++ [email]))).
Proof.
  destruct (σ !! name) as [a|] eqn:Hs.
  - rewrite (signup_known _ _ _ _ Hs).
    destruct (PyList.contains _ _) eqn:Hc; [by left|].
    destruct (_ >=? _)%Z eqn:Hcap; [by left|]. simpl.
    destruct (decide (k = name)) as [->|Hne].
    + right. split; [done|]. exists a. rewrite lookup_insert_eq.
      split_and!; [done| |lia|done]. by apply contains_false.
    + left. by rewrite lookup_insert_ne.
  - rewrite (signup_unknown _ _ _ Hs). by left.
Qed.

Lemma unregister_lookup σ name email k :
  (unregister_from_activity name email σ).2 !! k = σ !! k ∨
  (k = name ∧ ∃ a ps,
      σ !! k = Some a ∧ PyList.remove email (participants a) = Some ps ∧
      (unregister_from_activity name email σ).2 !! k =
        Some (with_participants a ps)).
Proof.
  destruct (σ !! name) as [a|] eqn:Hs.
  - rewrite (unregister_known _ _ _ _ Hs).
    destruct (PyList.contains _ _) eqn:Hc; [|by left].
    destruct (PyList.remove _ _) as [ps|] eqn:Hr; [|by left]. simpl.
    destruct (decide (k = name)) as [->|Hne].
    + right. split; [done|]. exists a, ps. by rewrite lookup_insert_eq.
    + left. by rewrite lookup_insert_ne.
  - rewrite (unregister_unknown _ _ _ Hs). by left.
Qed.

End handler_facts.

(** ** The invariant along the life of the service *)

Section invariant_facts.
Implicit Types (σ : gmap string Activity) (a : Activity).

Lemma activities_ok : registry_ok activities.
Proof.
  intros name a Hl. unfold activities in Hl.
  repeat (apply lookup_insert_Some in Hl as [[_ <-]|[_ Hl]];
          [split; [apply (bool_decide_unpack _); by vm_compute
                  |unfold PyList.len; simpl; lia]|]).
  by rewrite lookup_empty in Hl.
Qed.

Lemma signup_ok σ name email :
  registry_ok σ → registry_ok (signup_for_activity name email σ).2.
Proof.
  intros Hok k b Hk.
  destruct (signup_lookup σ name email k) as [Heq|(-> & a & Ha & Hnew & Hlt & Heq)].
  - rewrite Heq in Hk. by eapply Hok.
  - rewrite Heq in Hk. injection Hk as <-.
    destruct (Hok _ _ Ha) as [Hnd _]. split; simpl.
    + by apply append_NoDup.
    + change (participants a ++ [email]) with (PyList.append (participants a) email).
      rewrite append_len. lia.
Qed.

Lemma unregister_ok σ name email :
  registry_ok σ → registry_ok (unregister_from_activity name email σ).2.
Proof.
  intros Hok k b Hk.
  destruct (unregister_lookup σ name email k) as [Heq|(-> & a & ps & Ha & Hr & Heq)].
  - rewrite Heq in Hk. by eapply Hok.
  - rewrite Heq in Hk. injection Hk as <-.
    destruct (Hok _ _ Ha) as [Hnd Hlen]. split; simpl.
    + by destruct (remove_NoDup _ _ _ Hnd Hr).
    + apply remove_length in Hr. unfold PyList.len in *. lia.
Qed.

Lemma step_ok r σ : registry_ok σ → registry_ok (step r σ).
Proof.
  destruct r; simpl; [done|done|apply signup_ok|apply unregister_ok].
Qed.

Lemma reachable_ok σ : reachable σ → registry_ok σ.
Proof.
  induction 1 as [|r σ _ IH]; [apply activities_ok|by apply step_ok].
Qed.

End invariant_facts.

(** ** The repository's tests, replayed on the model *)

Section replayed_tests.

Example test_signup_nonexistent_activity :
  (signup_for_activity "NonExistent Activity" "test@mergington.edu" activities).1 =
    Raise (HTTPException 404 "Activity not found").
Proof. reflexivity. Qed.

Example test_signup_duplicate_participant :
  (signup_for_activity "Chess Club" "michael@mergington.edu" activities).1 =
    Raise (HTTPException 400 "Student already signed up for this activity").
Proof. reflexivity. Qed.

Example test_signup_adds_participant_to_activity :
  participants <$>
    (signup_for_activity "Tennis Club" "testuser@mergington.edu" activities).2
      !! "Tennis Club" =
    Some ["alex@mergington.edu"; "testuser@mergington.edu"].
Proof. reflexivity. Qed.

Example test_signup_activity_full :
  (signup_for_activity "Tennis Club" "overflow@mergington.edu"
     (signup_each "Tennis Club" fillers activities).2).1 =
    Raise (HTTPException 400 "This activity is full").
Proof. reflexivity. Qed.

Example test_unregister_existing_participant :
  unregister_from_activity "Chess Club" "michael@mergington.edu" activities =
    (Return (mkResponse "Removed michael@mergington.edu from Chess Club"),
     <["Chess Club" := mkActivity
         "Learn strategies and compete in chess tournaments"
         "Fridays, 3:30 PM - 5:00 PM" 12 ["daniel@mergington.edu"]]> activities).
Proof. reflexivity. Qed.

Example test_unregister_nonexistent_participant :
  (unregister_from_activity "Chess Club" "nonexistent@mergington.edu" activities).1 =
    Raise (HTTPException 404 "Student not found in activity").
Proof. reflexivity. Qed.

Example test_unregister_nonexistent_activity :
  (unregister_from_activity "NonExistent Activity" "test@mergington.edu" activities).1 =
    Raise (HTTPException 404 "Activity not found").
Proof. reflexivity. Qed.

End replayed_tests.

(** ** The properties of the specification *)

(** C1. Signup validates in a fixed order. An unknown activity name gives
    404 "Activity not found"; for a known activity an email already on the
    roster gives 400 "Student already signed up for this activity"
    (whether or not the activity is full); for a fresh email a roster of
    length at least [max_participants] gives 400 "This activity is full";
    only a fresh email below capacity is signed up. The first failing
    check in this order decides the error. *)
Theorem signup_validation_order (σ : gmap string Activity) (name email : string) :
  (σ !! name = None →
     signup_for_activity name email σ =
       (Raise (HTTPException 404 "Activity not found"), σ)) ∧
  (∀ a, σ !! name = Some a → email ∈ participants a →
     signup_for_activity name email σ =
       (Raise (HTTPException 400 "Student already signed up for this activity"), σ)) ∧
  (∀ a, σ !! name = Some a → email ∉ participants a →
     (max_participants a ≤ PyList.len (participants a))%Z →
     signup_for_activity name email σ =
       (Raise (HTTPException 400 "This activity is full"), σ)) ∧
  (∀ a, σ !! name = Some a → email ∉ participants a →
     (PyList.len (participants a) < max_participants a)%Z →
     is_Return (signup_for_activity name email σ).1).
Proof.
  split_and!.
  - apply signup_unknown.
  - intros a Hs Hin. rewrite (signup_known _ _ _ _ Hs).
    apply contains_true in Hin. by rewrite Hin.
  - intros a Hs Hnin Hfull. rewrite (signup_known _ _ _ _ Hs).
    apply contains_false in Hnin. rewrite Hnin.
    destruct (Z.geb_spec (PyList.len (participants a)) (max_participants a));
      [done|lia].
  - intros a Hs Hnin Hroom. rewrite (signup_known _ _ _ _ Hs).
    apply contains_false in Hnin. rewrite Hnin.
    destruct (Z.geb_spec (PyList.len (participants a)) (max_participants a));
      [lia|done].
Qed.

(** On a full activity that already lists the student, the duplicate check
    comes first: the error is "already signed up", not "full". *)
Lemma signup_validation_order_witness :
  (2 ≤ PyList.len ["ann@mergington.edu"; "bob@mergington.edu"])%Z ∧
  signup_for_activity "Duo" "bob@mergington.edu" full_house =
    (Raise (HTTPException 400 "Student already signed up for this activity"),
     full_house).
Proof.
  split; [by vm_compute|].
  eapply (proj1 (proj2 (signup_validation_order full_house "Duo" "bob@mergington.edu"))).
  - reflexivity.
  - apply (bool_decide_unpack _). by vm_compute.
Defined.

(** C2. Signing up a fresh email for a registered activity that is below
    capacity succeeds; the roster afterwards is the old roster followed by
    the email, every earlier entry at its old position; the confirmation
    message contains the activity name and the email. *)
Theorem signup_appends (σ : gmap string Activity) (name email : string) (a : Activity) :
  σ !! name = Some a →
  email ∉ participants a →
  (PyList.len (participants a) < max_participants a)%Z →
  ∃ msg σ' a',
    signup_for_activity name email σ = (Return msg, σ') ∧
    σ' !! name = Some a' ∧
    participants a' = participants a ++ [email] ∧
    (∀ i, (i < length (participants a))%nat →
          participants a' !! i = participants a !! i) ∧
    occurs_in name (message msg) ∧
    occurs_in email (message msg).
Proof.
  intros Hs Hnin Hroom. rewrite (signup_known _ _ _ _ Hs).
  apply contains_false in Hnin. rewrite Hnin.
  destruct (Z.geb_spec (PyList.len (participants a)) (max_participants a));
    [lia|].
  eexists _, _, _. split_and!.
  - reflexivity.
  - apply lookup_insert_eq.
  - reflexivity.
  - intros i Hi. simpl. by rewrite lookup_app_l.
  - simpl. rewrite <- (string_app_assoc email), <- string_app_assoc.
    apply occurs_in_end.
  - simpl. apply occurs_in_mid.
Qed.

Lemma signup_appends_witness :
  ∃ msg σ' a',
    signup_for_activity "Chess Club" "newstudent@mergington.edu" activities =
      (Return msg, σ') ∧
    σ' !! "Chess Club" = Some a' ∧
    participants a' =
      ["michael@mergington.edu"; "daniel@mergington.edu"] ++
      ["newstudent@mergington.edu"] ∧
    (∀ i, (i < 2)%nat →
          participants a' !! i =
          ["michael@mergington.edu"; "daniel@mergington.edu"] !! i) ∧
    occurs_in "Chess Club" (message msg) ∧
    occurs_in "newstudent@mergington.edu" (message msg).
Proof.
  eapply (signup_appends activities "Chess Club" "newstudent@mergington.edu"
            (mkActivity _ _ 12 ["michael@mergington.edu"; "daniel@mergington.edu"])).
  - reflexivity.
  - apply (bool_decide_unpack _). by vm_compute.
  - by vm_compute.
Defined.

(** C3. Unregistering from an unknown activity gives 404 "Activity not
    found"; for a known activity an email that is not on the roster gives
    404 "Student not found in activity"; for an email on the roster the
    handler returns its confirmation, and the roster stored under the
    activity's name afterwards is the old one with the first occurrence
    of the email cut out ([list.remove] never raises), one entry shorter.
    When the old roster lists nobody twice, as it does in every dictionary
    the service can reach, the email is not on the stored roster
    afterwards. *)
Theorem unregister_cases (σ : gmap string Activity) (name email : string) :
  (σ !! name = None →
     unregister_from_activity name email σ =
       (Raise (HTTPException 404 "Activity not found"), σ)) ∧
  (∀ a, σ !! name = Some a → email ∉ participants a →
     unregister_from_activity name email σ =
       (Raise (HTTPException 404 "Student not found in activity"), σ)) ∧
  (∀ a, σ !! name = Some a → email ∈ participants a →
     ∃ σ' a',
       unregister_from_activity name email σ =
         (Return (mkResponse ("Removed " +:+ (email +:+ (" from " +:+ name)))),
          σ') ∧
       σ' !! name = Some a' ∧
       PyList.remove email (participants a) = Some (participants a') ∧
       length (participants a) = S (length (participants a')) ∧
       (NoDup (participants a) → email ∉ participants a') ∧
       (reachable σ → email ∉ participants a')).
Proof.
  split_and!.
  - apply unregister_unknown.
  - intros a Hs Hnin. rewrite (unregister_known _ _ _ _ Hs).
    apply contains_false in Hnin. by rewrite Hnin.
  - intros a Hs Hin. rewrite (unregister_known _ _ _ _ Hs).
    destruct (remove_is_Some _ _ Hin) as [ps Hr].
    apply contains_true in Hin. rewrite Hin, Hr.
    exists (<[name := with_participants a ps]> σ), (with_participants a ps).
    split_and!; [done|apply lookup_insert_eq|done| | |].
    + simpl. by eapply remove_length.
    + intros Hnd. simpl. by destruct (remove_NoDup _ _ _ Hnd Hr).
    + intros Hreach. destruct (reachable_ok _ Hreach _ _ Hs) as [Hnd _].
      simpl. by destruct (remove_NoDup _ _ _ Hnd Hr).
Qed.

Lemma unregister_cases_witness :
  ∃ σ' a',
    unregister_from_activity "Chess Club" "michael@mergington.edu" activities =
      (Return (mkResponse "Removed michael@mergington.edu from Chess Club"), σ') ∧
    σ' !! "Chess Club" = Some a' ∧
    PyList.remove "michael@mergington.edu"
      ["michael@mergington.edu"; "daniel@mergington.edu"] = Some (participants a') ∧
    "michael@mergington.edu" ∉ participants a'.
Proof.
  destruct (proj2 (proj2 (unregister_cases activities "Chess Club"
                            "michael@mergington.edu"))
              (mkActivity "Learn strategies and compete in chess tournaments"
                 "Fridays, 3:30 PM - 5:00 PM" 12
                 ["michael@mergington.edu"; "daniel@mergington.edu"]))
    as (σ' & a' & Hrun & Hs' & Hr & _ & _ & Hgone).
  - reflexivity.
  - apply (bool_decide_unpack _). by vm_compute.
  - exists σ', a'.
    split_and!; [exact Hrun|exact Hs'|exact Hr|exact (Hgone reachable_seed)].
Defined.

(** C4. The seed data satisfy the invariant (no roster lists an email
    twice, no roster is longer than [max_participants]), every request,
    whether it succeeds or raises, preserves it, and so it holds in every
    dictionary the service can reach. *)
Theorem invariant_preserved :
  registry_ok activities ∧
  (∀ σ r, registry_ok σ → registry_ok (step r σ)) ∧
  (∀ σ name a, reachable σ → σ !! name = Some a →
     NoDup (participants a) ∧
     (PyList.len (participants a) ≤ max_participants a)%Z).
Proof.
  split_and!.
  - apply activities_ok.
  - intros σ r. apply step_ok.
  - intros σ name a Hreach Hs. exact (reachable_ok _ Hreach _ _ Hs).
Qed.

Lemma invariant_preserved_witness :
  registry_ok
    (step (DeleteParticipant "Chess Club" "michael@mergington.edu")
       (step (PostSignup "Tennis Club" "testuser@mergington.edu") activities)).
Proof.
  destruct invariant_preserved as (Hseed & Hstep & _).
  apply Hstep, Hstep, Hseed.
Defined.

(** Signing up a list of distinct fresh emails that fits under the
    capacity: every signup returns, and the emails are appended in order. *)
Lemma signup_each_fresh (name : string) (es : list string) :
  ∀ (σ : gmap string Activity) (a : Activity),
    σ !! name = Some a →
    NoDup es →
    (∀ e, e ∈ es → e ∉ participants a) →
    (PyList.len (participants a) + Z.of_nat (length es) ≤ max_participants a)%Z →
    ∃ os σ' a',
      signup_each name es σ = (os, σ') ∧
      length os = length es ∧
      Forall is_Return os ∧
      σ' !! name = Some a' ∧
      participants a' = participants a ++ es ∧
      max_participants a' = max_participants a.
Proof.
  induction es as [|e es IH]; intros σ a Hs Hnd Hfresh Hcap.
  - exists [], σ, a. simpl. rewrite app_nil_r. by split_and!.
  - apply NoDup_cons in Hnd as [He Hnd]. simpl in Hcap |- *.
    rewrite (signup_known _ _ _ _ Hs).
    assert (PyList.contains e (participants a) = false) as ->.
    { apply contains_false, Hfresh. left. }
    destruct (Z.geb_spec (PyList.len (participants a)) (max_participants a));
      [lia|].
    set (a1 := with_participants a (participants a ++ [e])).
    destruct (IH (<[name := a1]> σ) a1) as (os & σ' & a' & Hrun & Hlen & Hall & Hs' & Hps & Hmax).
    + apply lookup_insert_eq.
    + done.
    + intros x Hx. simpl. rewrite not_elem_of_app. split.
      * apply Hfresh. by right.
      * intros ->%list_elem_of_singleton. done.
    + simpl. change (participants a ++ [e]) with (PyList.append (participants a) e).
      rewrite append_len. lia.
    + rewrite Hrun. exists (Return (mkResponse ("Signed up " +:+ (e +:+ (" for " +:+ name)))) :: os), σ', a'.
      split_and!; [done|simpl; by rewrite Hlen|by constructor|done| |done].
      rewrite Hps. simpl. by rewrite <- app_assoc.
Qed.

(** C5. The capacity check is an exact boundary. For a registered activity
    and a fresh email, signup succeeds whenever the roster is shorter than
    [max_participants], leaving a roster one longer (so a roster can grow
    to exactly [max_participants]); it raises 400 "This activity is full"
    exactly when the roster has at least [max_participants] entries. From
    the seed data, where Tennis Club lists alex@mergington.edu alone under
    a capacity of 10, signing up any 9 distinct new emails succeeds 9
    times, and a further new email is then refused as full. *)
Theorem capacity_boundary :
  (∀ (σ : gmap string Activity) (name email : string) (a : Activity),
     σ !! name = Some a → email ∉ participants a →
     ((PyList.len (participants a) < max_participants a)%Z →
        ∃ msg σ' a',
          signup_for_activity name email σ = (Return msg, σ') ∧
          σ' !! name = Some a' ∧
          PyList.len (participants a') = (PyList.len (participants a) + 1)%Z ∧
          (PyList.len (participants a') ≤ max_participants a)%Z) ∧
     ((signup_for_activity name email σ).1 = Raise CapacityExceeded ↔
        (max_participants a ≤ PyList.len (participants a))%Z)) ∧
  (activities !! "Tennis Club" =
     Some (mkActivity "Tennis lessons and tournament preparation"
             "Tuesdays and Thursdays, 4:00 PM - 5:00 PM"
             10 ["alex@mergington.edu"])) ∧
  (∀ (es : list string) (e : string),
     length es = 9%nat → NoDup es →
     "alex@mergington.edu" ∉ es →
     e ∉ es → e ≠ "alex@mergington.edu" →
     ∃ os σ',
       signup_each "Tennis Club" es activities = (os, σ') ∧
       length os = 9%nat ∧
       Forall is_Return os ∧
       (signup_for_activity "Tennis Club" e σ').1 = Raise CapacityExceeded).
Proof.
  split_and!.
  - intros σ name email a Hs Hnin. rewrite (signup_known _ _ _ _ Hs).
    apply contains_false in Hnin. rewrite Hnin.
    destruct (Z.geb_spec (PyList.len (participants a)) (max_participants a))
      as [Hfull|Hroom].
    + split; [lia|]. split; [lia|done].
    + split.
      * intros _. eexists _, _, _. split_and!; [done|apply lookup_insert_eq| |].
        -- simpl. change (participants a ++ [email])
             with (PyList.append (participants a) email). apply append_len.
        -- simpl. change (participants a ++ [email])
             with (PyList.append (participants a) email).
           rewrite append_len. lia.
      * split; [discriminate|lia].
  - reflexivity.
  - intros es e Hlen Hnd Halex He Hne.
    destruct (signup_each_fresh "Tennis Club" es activities
                (mkActivity "Tennis lessons and tournament preparation"
                   "Tuesdays and Thursdays, 4:00 PM - 5:00 PM"
                   10 ["alex@mergington.edu"]))
      as (os & σ' & a' & Hrun & Hlen' & Hall & Hs' & Hps & Hmax).
    + reflexivity.
    + done.
    + intros x Hx. simpl. intros ->%list_elem_of_singleton. done.
    + unfold PyList.len. simpl. lia.
    + exists os, σ'. split_and!; [done|congruence|done|].
      rewrite (signup_known _ _ _ _ Hs').
      assert (PyList.contains e (participants a') = false) as ->.
      { apply contains_false. rewrite Hps. simpl.
        rewrite not_elem_of_cons. done. }
      destruct (Z.geb_spec (PyList.len (participants a')) (max_participants a'))
        as [Hfull|Hroom]; [done|].
      exfalso. rewrite Hmax, Hps in Hroom. unfold PyList.len in Hroom.
      simpl in Hroom. lia.
Qed.

Lemma capacity_boundary_witness :
  ∃ os σ',
    signup_each "Tennis Club" fillers activities = (os, σ') ∧
    length os = 9%nat ∧
    Forall is_Return os ∧
    (signup_for_activity "Tennis Club" "overflow@mergington.edu" σ').1 =
      Raise CapacityExceeded.
Proof.
  apply (proj2 (proj2 capacity_boundary) fillers "overflow@mergington.edu").
  - reflexivity.
  - apply (bool_decide_unpack _). by vm_compute.
  - apply (bool_decide_unpack _). by vm_compute.
  - apply (bool_decide_unpack _). by vm_compute.
  - discriminate.
Defined.

(** C6. A signup or an unregister that raises leaves the whole dictionary
    as it was before the call. The only exceptions they raise are the four
    HTTP errors: three for signup, two for unregister. *)
Theorem failure_is_atomic (σ : gmap string Activity) (name email : string) (e : exn) :
  ((signup_for_activity name email σ).1 = Raise e →
     (signup_for_activity name email σ).2 = σ ∧
     e ∈ [NotFound; AlreadyEnrolled; CapacityExceeded]) ∧
  ((unregister_from_activity name email σ).1 = Raise e →
     (unregister_from_activity name email σ).2 = σ ∧
     e ∈ [NotFound; ParticipantNotFound]).
Proof.
  split; intros Hraise.
  - split; [by eapply signup_raise_state|].
    destruct (σ !! name) as [a|] eqn:Hs.
    + rewrite (signup_known _ _ _ _ Hs) in Hraise.
      destruct (PyList.contains _ _).
      { injection Hraise as <-. set_solver. }
      destruct (_ >=? _)%Z; [|discriminate].
      injection Hraise as <-. set_solver.
    + rewrite (signup_unknown _ _ _ Hs) in Hraise.
      injection Hraise as <-. set_solver.
  - split; [by eapply unregister_raise_state|].
    destruct (σ !! name) as [a|] eqn:Hs.
    + rewrite (unregister_known _ _ _ _ Hs) in Hraise.
      destruct (PyList.contains _ _) eqn:Hc.
      * apply contains_true, remove_is_Some in Hc as [ps Hr].
        rewrite Hr in Hraise. discriminate.
      * injection Hraise as <-. set_solver.
    + rewrite (unregister_unknown _ _ _ Hs) in Hraise.
      injection Hraise as <-. set_solver.
Qed.

Lemma failure_is_atomic_witness :
  (signup_for_activity "Chess Club" "michael@mergington.edu" activities).2 =
    activities ∧
  (unregister_from_activity "Chess Club" "nonexistent@mergington.edu" activities).2 =
    activities.
Proof.
  split.
  - apply (proj1 (failure_is_atomic activities "Chess Club"
                    "michael@mergington.edu" AlreadyEnrolled)).
    reflexivity.
  - apply (proj2 (failure_is_atomic activities "Chess Club"
                    "nonexistent@mergington.edu" ParticipantNotFound)).
    reflexivity.
Defined.

(** C7. Under the invariant, unregistering an email that is on the roster
    of a registered activity succeeds, signing the same email up again
    right after succeeds too, and the roster then holds the same set of
    emails as before the two calls (it is a rearrangement of the old
    roster). *)
Theorem unregister_signup_same_set
    (σ : gmap string Activity) (name email : string) (a : Activity) :
  registry_ok σ →
  σ !! name = Some a →
  email ∈ participants a →
  ∃ m1 σ1 m2 σ2 a2,
    unregister_from_activity name email σ = (Return m1, σ1) ∧
    signup_for_activity name email σ1 = (Return m2, σ2) ∧
    σ2 !! name = Some a2 ∧
    roster_set (participants a2) = roster_set (participants a) ∧
    participants a2 ≡ₚ participants a.
Proof.
  intros Hok Hs Hin. destruct (Hok _ _ Hs) as [Hnd Hlen].
  destruct (remove_is_Some _ _ Hin) as [ps Hr].
  destruct (remove_NoDup _ _ _ Hnd Hr) as [_ Hgone].
  pose proof (remove_length _ _ _ Hr) as Hl.
  pose proof (remove_Permutation _ _ _ Hr) as Hperm.
  rewrite (unregister_known _ _ _ _ Hs).
  apply contains_true in Hin. rewrite Hin, Hr.
  eexists _, _. 
  rewrite (signup_known _ _ _ (with_participants a ps)); [|apply lookup_insert_eq].
  simpl. apply contains_false in Hgone. rewrite Hgone.
  destruct (Z.geb_spec (PyList.len ps) (max_participants a)) as [Hfull|_].
  { unfold PyList.len in *. lia. }
  eexists _, _, _. split_and!; [done|done|apply lookup_insert_eq| |].
  - simpl. unfold roster_set. apply set_eq. intros x.
    rewrite !elem_of_list_to_set, Hperm.
    rewrite elem_of_app, !elem_of_cons, elem_of_nil. tauto.
  - simpl. rewrite Hperm. by rewrite <- Permutation_cons_append.
Qed.

Lemma unregister_signup_same_set_witness :
  ∃ m1 σ1 m2 σ2 a2,
    unregister_from_activity "Chess Club" "michael@mergington.edu" activities =
      (Return m1, σ1) ∧
    signup_for_activity "Chess Club" "michael@mergington.edu" σ1 = (Return m2, σ2) ∧
    σ2 !! "Chess Club" = Some a2 ∧
    roster_set (participants a2) =
      roster_set ["michael@mergington.edu"; "daniel@mergington.edu"] ∧
    participants a2 ≡ₚ ["michael@mergington.edu"; "daniel@mergington.edu"].
Proof.
  apply (unregister_signup_same_set activities "Chess Club" "michael@mergington.edu"
           (mkActivity "Learn strategies and compete in chess tournaments"
              "Fridays, 3:30 PM - 5:00 PM" 12
              ["michael@mergington.edu"; "daniel@mergington.edu"])).
  - apply activities_ok.
  - reflexivity.
  - apply (bool_decide_unpack _). by vm_compute.
Defined.

(** C8. Listing always returns, its result is the whole dictionary (under
    every name, the record currently stored there), the dictionary is left
    as it was, and a second listing right after the first returns the same
    result. *)
Theorem get_activities_pure (σ : gmap string Activity) :
  ∃ listing,
    get_activities σ = (Return listing, σ) ∧
    (∀ name, listing !! name = σ !! name) ∧
    (get_activities (get_activities σ).2).1 = (get_activities σ).1 ∧
    step GetActivities σ = σ.
Proof. exists σ. by split_and!. Qed.

(** C9. No request adds or removes a key of the dictionary; every record
    keeps its description, schedule and capacity; a signup or unregister
    for one activity leaves the records of all other activities as they
    were. So the participants list of the targeted activity is the only
    thing that can change. *)
Theorem requests_frame (σ : gmap string Activity) (r : request) :
  dom (step r σ) = dom σ ∧
  (∀ k a, σ !! k = Some a →
     ∃ a', step r σ !! k = Some a' ∧ same_static a a') ∧
  (∀ name email k,
     r = PostSignup name email ∨ r = DeleteParticipant name email →
     k ≠ name → step r σ !! k = σ !! k).
Proof.
  assert (∀ k a, σ !! k = Some a →
            ∃ a', step r σ !! k = Some a' ∧ same_static a a') as Hkeep.
  { intros k a Hk. destruct r as [| |n e|n e]; simpl.
    - by exists a.
    - by exists a.
    - destruct (signup_lookup σ n e k) as [->|(_ & a0 & Ha0 & _ & _ & ->)].
      + by exists a.
      + rewrite Hk in Ha0. injection Ha0 as <-. by eexists.
    - destruct (unregister_lookup σ n e k) as [->|(_ & a0 & ps & Ha0 & _ & ->)].
      + by exists a.
      + rewrite Hk in Ha0. injection Ha0 as <-. by eexists. }
  assert (∀ k, step r σ !! k = None ↔ σ !! k = None) as Hnone.
  { intros k. split.
    - intros Hn. destruct (σ !! k) as [a|] eqn:Hk; [|done].
      destruct (Hkeep _ _ Hk) as (a' & Ha' & _). congruence.
    - intros Hk. destruct r as [| |n e|n e]; simpl; [done|done| |].
      + destruct (signup_lookup σ n e k) as [->|(_ & a0 & Ha0 & _)]; congruence.
      + destruct (unregister_lookup σ n e k) as [->|(_ & a0 & ps & Ha0 & _)];
          congruence. }
  split_and!.
  - apply set_eq. intros k. rewrite !elem_of_dom, <- !not_eq_None_Some.
    by rewrite Hnone.
  - exact Hkeep.
  - intros name email k [-> | ->] Hne; simpl.
    + destruct (signup_lookup σ name email k) as [->|(-> & _)]; done.
    + destruct (unregister_lookup σ name email k) as [->|(-> & _)]; done.
Qed.

Lemma requests_frame_witness :
  step (PostSignup "Tennis Club" "testuser@mergington.edu") activities
    !! "Chess Club" = activities !! "Chess Club".
Proof.
  apply (proj2 (proj2 (requests_frame activities
                         (PostSignup "Tennis Club" "testuser@mergington.edu")))
           "Tennis Club" "testuser@mergington.edu" "Chess Club").
  - by left.
  - discriminate.
Defined.

(** C10. A successful unregister cuts exactly the first occurrence of the
    email out of the roster and keeps all other entries in their order.
    If the email was not the last entry and the same email is then signed
    up again with success, it lands at the end: the roster holds the same
    set of emails as before but is a different sequence. *)
Theorem unregister_signup_reorders
    (σ : gmap string Activity) (name email : string) (a : Activity) :
  σ !! name = Some a →
  email ∈ participants a →
  ∃ l1 l2 m1 σ1 a1,
    participants a = l1 ++ email :: l2 ∧
    (email ∉ l1) ∧
    unregister_from_activity name email σ = (Return m1, σ1) ∧
    σ1 !! name = Some a1 ∧
    participants a1 = l1 ++ l2 ∧
    (∀ m2 σ2,
       last (participants a) ≠ Some email →
       signup_for_activity name email σ1 = (Return m2, σ2) →
       ∃ a2,
         σ2 !! name = Some a2 ∧
         participants a2 = l1 ++ l2 ++ [email] ∧
         participants a2 ≠ participants a ∧
         roster_set (participants a2) = roster_set (participants a)).
Proof.
  intros Hs Hin.
  destruct (remove_is_Some _ _ Hin) as [ps Hr].
  destruct (proj1 (remove_spec _ _ _) Hr) as (l1 & l2 & Hsplit & Hl1 & ->).
  rewrite (unregister_known _ _ _ _ Hs).
  apply contains_true in Hin. rewrite Hin, Hr.
  exists l1, l2. eexists _, _, _.
  split_and!; [done|done|done|apply lookup_insert_eq|done|].
  intros m2 σ2 Hlast Hsign.
  rewrite (signup_known _ _ _ (with_participants a (l1 ++ l2))) in Hsign;
    [|apply lookup_insert_eq].
  simpl in Hsign.
  destruct (PyList.contains email (l1 ++ l2)) eqn:Hc; [discriminate|].
  destruct (_ >=? _)%Z; [discriminate|].
  injection Hsign as _ <-.
  apply contains_false in Hc. apply not_elem_of_app in Hc as [_ Hl2].
  eexists. split_and!.
  - rewrite insert_insert_eq. apply lookup_insert_eq.
  - simpl. by rewrite <- app_assoc.
  - simpl. rewrite Hsplit, <- app_assoc. intros Heq%app_inv_head.
    destruct l2 as [|y l2].
    + apply Hlast. rewrite Hsplit. by rewrite last_snoc.
    + simpl in Heq. injection Heq as -> _. apply Hl2. left.
  - simpl. unfold roster_set. apply set_eq. intros x.
    rewrite !elem_of_list_to_set, Hsplit.
    rewrite !elem_of_app, !elem_of_cons, elem_of_nil. tauto.
Qed.

Lemma unregister_signup_reorders_witness :
  ∃ m1 σ1 m2 σ2 a2,
    unregister_from_activity "Chess Club" "michael@mergington.edu" activities =
      (Return m1, σ1) ∧
    signup_for_activity "Chess Club" "michael@mergington.edu" σ1 = (Return m2, σ2) ∧
    σ2 !! "Chess Club" = Some a2 ∧
    participants a2 = ["daniel@mergington.edu"; "michael@mergington.edu"] ∧
    participants a2 ≠ ["michael@mergington.edu"; "daniel@mergington.edu"].
Proof.
  destruct (unregister_signup_reorders activities "Chess Club"
              "michael@mergington.edu"
              (mkActivity "Learn strategies and compete in chess tournaments"
                 "Fridays, 3:30 PM - 5:00 PM" 12
                 ["michael@mergington.edu"; "daniel@mergington.edu"]))
    as (l1 & l2 & m1 & σ1 & a1 & Hsplit & Hl1 & Hrun & _ & _ & Hnext).
  - reflexivity.
  - apply (bool_decide_unpack _). by vm_compute.
  - simpl in Hsplit.
    assert (l1 = [] ∧ l2 = ["daniel@mergington.edu"]) as [-> ->].
    { destruct l1 as [|x l1]; simpl in Hsplit.
      - injection Hsplit as <-. done.
      - injection Hsplit as <- _. exfalso. apply Hl1. left. }
    assert (σ1 = (unregister_from_activity "Chess Club"
                    "michael@mergington.edu" activities).2) as Hσ1.
    { by rewrite Hrun. }
    destruct (Hnext (mkResponse "Signed up michael@mergington.edu for Chess Club")
                (signup_for_activity "Chess Club" "michael@mergington.edu" σ1).2)
      as (a2 & Ha2 & Hps & Hneq & _).
    + discriminate.
    + rewrite Hσ1. reflexivity.
    + exists m1, σ1. eexists _, _, a2. split_and!; [done| |done|done|done].
      rewrite Hσ1. reflexivity.
Defined.

(** ** Further properties of the handlers *)

Section composition_facts.
Implicit Types (σ : gmap string Activity) (a : Activity).
Implicit Types (name email : string).

Lemma with_participants_id a : with_participants a (participants a) = a.
Proof. by destruct a. Qed.

Lemma with_participants_twice a ps ps' :
  with_participants (with_participants a ps) ps' = with_participants a ps'.
Proof. done. Qed.

Lemma remove_appended email ps :
  email ∉ ps → PyList.remove email (ps ++ [email]) = Some ps.
Proof.
  intros Hnin. apply remove_spec. exists ps, [].
  by rewrite app_nil_r.
Qed.

(** A signup that returns found the activity, the email off its roster
    and a free seat. *)
Lemma signup_Return_inv σ name email m σ' :
  signup_for_activity name email σ = (Return m, σ') →
  ∃ a, σ !! name = Some a ∧ (email ∉ participants a) ∧
       (PyList.len (participants a) < max_participants a)%Z ∧
       σ' = <[name := with_participants a (participants a ++ [email])]> σ.
Proof.
  intros Hrun. destruct (σ !! name) as [a|] eqn:Hs.
  - rewrite (signup_known _ _ _ _ Hs) in Hrun.
    destruct (PyList.contains _ _) eqn:Hc; [discriminate|].
    destruct (Z.geb_spec (PyList.len (participants a)) (max_participants a));
      [discriminate|].
    injection Hrun as _ <-. exists a.
    split_and!; [done| |lia|done]. by apply contains_false.
  - rewrite (signup_unknown _ _ _ Hs) in Hrun. discriminate.
Qed.

(** An unregister that returns found the activity and cut the email out
    of its roster. *)
Lemma unregister_Return_inv σ name email m σ' :
  unregister_from_activity name email σ = (Return m, σ') →
  ∃ a ps, σ !! name = Some a ∧ PyList.remove email (participants a) = Some ps ∧
          σ' = <[name := with_participants a ps]> σ.
Proof.
  intros Hrun. destruct (σ !! name) as [a|] eqn:Hs.
  - rewrite (unregister_known _ _ _ _ Hs) in Hrun.
    destruct (PyList.contains _ _); [|discriminate].
    destruct (PyList.remove _ _) as [ps|] eqn:Hr; [|discriminate].
    injection Hrun as _ <-. by exists a, ps.
  - rewrite (unregister_unknown _ _ _ Hs) in Hrun. discriminate.
Qed.

End composition_facts.

(** X1. Signing an email up and unregistering it right after is a round
    trip on the whole dictionary: whenever the signup returns, the
    unregister returns too and leaves exactly the dictionary the signup
    started from (same rosters, same order). *)
Theorem signup_then_unregister_restores
    (σ σ1 : gmap string Activity) (name email : string) (m1 : response) :
  signup_for_activity name email σ = (Return m1, σ1) →
  unregister_from_activity name email σ1 =
    (Return (mkResponse ("Removed " +:+ (email +:+ (" from " +:+ name)))), σ).
Proof.
  intros (a & Hs & Hnin & _ & ->)%signup_Return_inv.
  rewrite (unregister_known _ _ _ (with_participants a (participants a ++ [email])));
    [|apply lookup_insert_eq].
  simpl. rewrite (remove_appended _ _ Hnin).
  assert (PyList.contains email (participants a ++ [email]) = true) as ->.
  { apply contains_true. rewrite elem_of_app, list_elem_of_singleton. by right. }
  rewrite insert_insert_eq, with_participants_twice, with_participants_id.
  by rewrite insert_id.
Qed.

Lemma signup_then_unregister_restores_witness :
  unregister_from_activity "Programming Class" "integration@mergington.edu"
    (signup_for_activity "Programming Class" "integration@mergington.edu"
       activities).2 =
    (Return (mkResponse "Removed integration@mergington.edu from Programming Class"),
     activities).
Proof.
  apply (signup_then_unregister_restores activities _ "Programming Class"
           "integration@mergington.edu"
           (mkResponse "Signed up integration@mergington.edu for Programming Class")).
  reflexivity.
Defined.

(** X2. A signup cannot be repeated: after a signup that returned, the
    same signup raises 400 "Student already signed up for this activity"
    and changes nothing, whether or not seats are left. *)
Theorem signup_twice_rejected
    (σ σ1 : gmap string Activity) (name email : string) (m1 : response) :
  signup_for_activity name email σ = (Return m1, σ1) →
  signup_for_activity name email σ1 =
    (Raise (HTTPException 400 "Student already signed up for this activity"), σ1).
Proof.
  intros (a & Hs & Hnin & _ & ->)%signup_Return_inv.
  rewrite (signup_known _ _ _ (with_participants a (participants a ++ [email])));
    [|apply lookup_insert_eq].
  simpl.
  assert (PyList.contains email (participants a ++ [email]) = true) as ->; [|done].
  apply contains_true. rewrite elem_of_app, list_elem_of_singleton. by right.
Qed.

Lemma signup_twice_rejected_witness :
  signup_for_activity "Tennis Club" "testuser@mergington.edu"
    (signup_for_activity "Tennis Club" "testuser@mergington.edu" activities).2 =
    (Raise (HTTPException 400 "Student already signed up for this activity"),
     (signup_for_activity "Tennis Club" "testuser@mergington.edu" activities).2).
Proof.
  apply (signup_twice_rejected activities _ "Tennis Club" "testuser@mergington.edu"
           (mkResponse "Signed up testuser@mergington.edu for Tennis Club")).
  reflexivity.
Defined.

(** X3. When no roster lists an email twice, an unregister cannot be
    repeated: after an unregister that returned, the same unregister
    raises 404 "Student not found in activity" and changes nothing. *)
Theorem unregister_twice_rejected
    (σ σ1 : gmap string Activity) (name email : string) (m1 : response) :
  (∀ k a, σ !! k = Some a → NoDup (participants a)) →
  unregister_from_activity name email σ = (Return m1, σ1) →
  unregister_from_activity name email σ1 =
    (Raise (HTTPException 404 "Student not found in activity"), σ1).
Proof.
  intros Hok (a & ps & Hs & Hr & ->)%unregister_Return_inv.
  pose proof (Hok _ _ Hs) as Hnd.
  destruct (remove_NoDup _ _ _ Hnd Hr) as [_ Hgone].
  rewrite (unregister_known _ _ _ (with_participants a ps));
    [|apply lookup_insert_eq].
  simpl. apply contains_false in Hgone. by rewrite Hgone.
Qed.

Lemma unregister_twice_rejected_witness :
  unregister_from_activity "Chess Club" "michael@mergington.edu"
    (unregister_from_activity "Chess Club" "michael@mergington.edu" activities).2 =
    (Raise (HTTPException 404 "Student not found in activity"),
     (unregister_from_activity "Chess Club" "michael@mergington.edu" activities).2).
Proof.
  apply (unregister_twice_rejected activities _ "Chess Club" "michael@mergington.edu"
           (mkResponse "Removed michael@mergington.edu from Chess Club")).
  - intros k a Hk. by destruct (activities_ok k a Hk).
  - reflexivity.
Defined.

(** X4. An unregister frees a seat. Under the invariant, once a listed
    email has been unregistered, any email that was not on the roster can
    sign up for that activity, even if the activity was full before; the
    roster is then the old one without the leaver, the newcomer last. *)
Theorem unregister_frees_a_seat
    (σ : gmap string Activity) (name leaver newcomer : string) (a : Activity) :
  registry_ok σ →
  σ !! name = Some a →
  leaver ∈ participants a →
  newcomer ∉ participants a →
  ∃ m1 σ1 m2 σ2 ps a2,
    unregister_from_activity name leaver σ = (Return m1, σ1) ∧
    signup_for_activity name newcomer σ1 = (Return m2, σ2) ∧
    PyList.remove leaver (participants a) = Some ps ∧
    σ2 !! name = Some a2 ∧
    participants a2 = ps ++ [newcomer] ∧
    PyList.len (participants a2) = PyList.len (participants a).
Proof.
  intros Hok Hs Hin Hnew. destruct (Hok _ _ Hs) as [Hnd Hlen].
  destruct (remove_is_Some _ _ Hin) as [ps Hr].
  pose proof (remove_length _ _ _ Hr) as Hl.
  pose proof (remove_Permutation _ _ _ Hr) as Hperm.
  rewrite (unregister_known _ _ _ _ Hs).
  apply contains_true in Hin. rewrite Hin, Hr.
  eexists _, _.
  rewrite (signup_known _ _ _ (with_participants a ps)); [|apply lookup_insert_eq].
  simpl.
  assert (PyList.contains newcomer ps = false) as ->.
  { apply contains_false. intros Hps. apply Hnew. rewrite Hperm. by right. }
  destruct (Z.geb_spec (PyList.len ps) (max_participants a)) as [Hfull|_].
  { unfold PyList.len in *. lia. }
  eexists _, _, ps, _.
  split_and!; [done|done|done|apply lookup_insert_eq|done|].
  simpl. unfold PyList.len. rewrite length_app, Hl. simpl. lia.
Qed.

Lemma unregister_frees_a_seat_witness :
  ∃ m1 σ1 m2 σ2 ps a2,
    unregister_from_activity "Duo" "ann@mergington.edu" full_house = (Return m1, σ1) ∧
    signup_for_activity "Duo" "cy@mergington.edu" σ1 = (Return m2, σ2) ∧
    PyList.remove "ann@mergington.edu"
      ["ann@mergington.edu"; "bob@mergington.edu"] = Some ps ∧
    σ2 !! "Duo" = Some a2 ∧
    participants a2 = ps ++ ["cy@mergington.edu"] ∧
    PyList.len (participants a2) =
      PyList.len ["ann@mergington.edu"; "bob@mergington.edu"].
Proof.
  apply (unregister_frees_a_seat full_house "Duo" "ann@mergington.edu"
           "cy@mergington.edu"
           (mkActivity "Two seats" "Never" 2
              ["ann@mergington.edu"; "bob@mergington.edu"])).
  - intros k b Hk. unfold full_house in Hk.
    apply lookup_singleton_Some in Hk as [_ <-]. split.
    + apply (bool_decide_unpack _). by vm_compute.
    + by vm_compute.
  - reflexivity.
  - apply (bool_decide_unpack _). by vm_compute.
  - apply (bool_decide_unpack _). by vm_compute.
Defined.

Section locality_facts.
Implicit Types (σ : gmap string Activity) (a : Activity) (r : request).

(** A request keeps every record in place, with its description, schedule
    and capacity, and creates none. *)
Lemma step_keeps_record r σ k a :
  σ !! k = Some a → ∃ a', step r σ !! k = Some a' ∧ same_static a a'.
Proof.
  intros Hk. destruct r as [| |n e|n e]; simpl.
  - by exists a.
  - by exists a.
  - destruct (signup_lookup σ n e k) as [->|(_ & a0 & Ha0 & _ & _ & ->)].
    + by exists a.
    + rewrite Hk in Ha0. injection Ha0 as <-. by eexists.
  - destruct (unregister_lookup σ n e k) as [->|(_ & a0 & ps & Ha0 & _ & ->)].
    + by exists a.
    + rewrite Hk in Ha0. injection Ha0 as <-. by eexists.
Qed.

Lemma step_keeps_absent r σ k : σ !! k = None → step r σ !! k = None.
Proof.
  intros Hk. destruct r as [| |n e|n e]; simpl; [done|done| |].
  - destruct (signup_lookup σ n e k) as [->|(_ & a0 & Ha0 & _)]; congruence.
  - destruct (unregister_lookup σ n e k) as [->|(_ & a0 & ps & Ha0 & _)];
      congruence.
Qed.

Lemma same_static_trans a b c : same_static a b → same_static b c → same_static a c.
Proof. unfold same_static. intros (-> & -> & ->) (-> & -> & ->). done. Qed.

Lemma run_requests_keeps_record rs σ k a :
  σ !! k = Some a → ∃ a', run_requests rs σ !! k = Some a' ∧ same_static a a'.
Proof.
  revert σ a. induction rs as [|r rs IH]; intros σ a Hk; simpl.
  - by exists a.
  - destruct (step_keeps_record r σ k a Hk) as (a1 & Hk1 & Hst1).
    destruct (IH _ _ Hk1) as (a' & Hk' & Hst'). exists a'.
    split; [done|]. by eapply same_static_trans.
Qed.

Lemma run_requests_keeps_absent rs σ k :
  σ !! k = None → run_requests rs σ !! k = None.
Proof.
  revert σ. induction rs as [|r rs IH]; intros σ Hk; simpl; [done|].
  by apply IH, step_keeps_absent.
Qed.

(** A signup or unregister touches the entry of its own activity only. *)
Lemma step_other r σ n k : target r = Some n → k ≠ n → step r σ !! k = σ !! k.
Proof.
  destruct r as [| |n' e|n' e]; simpl; try discriminate; intros [= ->] Hne.
  - destruct (signup_lookup σ n e k) as [->|(-> & _)]; done.
  - destruct (unregister_lookup σ n e k) as [->|(-> & _)]; done.
Qed.

(** What a signup or unregister answers, and what it leaves under its
    activity's name, depend on the entry under that name only. *)
Lemma handle_local r σ σ' n :
  target r = Some n → σ !! n = σ' !! n →
  (handle r σ).1 = (handle r σ').1 ∧ step r σ !! n = step r σ' !! n.
Proof.
  destruct r as [| |n' e|n' e]; simpl; try discriminate; intros [= ->] Heq;
    unfold mbind, handler_bind, bind.
  - destruct (σ !! n) as [a|] eqn:Hs; symmetry in Heq.
    + rewrite (signup_known _ _ _ _ Hs), (signup_known _ _ _ _ Heq).
      destruct (PyList.contains _ _); [simpl; split; congruence|].
      destruct (_ >=? _)%Z; [simpl; split; congruence|].
      simpl. by rewrite !lookup_insert_eq.
    + rewrite (signup_unknown _ _ _ Hs), (signup_unknown _ _ _ Heq).
      simpl. split; congruence.
  - destruct (σ !! n) as [a|] eqn:Hs; symmetry in Heq.
    + rewrite (unregister_known _ _ _ _ Hs), (unregister_known _ _ _ _ Heq).
      destruct (PyList.contains _ _); [|simpl; split; congruence].
      destruct (PyList.remove _ _); [|simpl; split; congruence].
      simpl. by rewrite !lookup_insert_eq.
    + rewrite (unregister_unknown _ _ _ Hs), (unregister_unknown _ _ _ Heq).
      simpl. split; congruence.
Qed.

End locality_facts.

(** X5. Signups and unregisters for two different activities do not
    interfere: each is answered as it would be without the other, and the
    two can be handled in either order with the same final dictionary. *)
Theorem different_activities_commute
    (σ : gmap string Activity) (r1 r2 : request) (n1 n2 : string) :
  target r1 = Some n1 →
  target r2 = Some n2 →
  n1 ≠ n2 →
  (handle r2 (step r1 σ)).1 = (handle r2 σ).1 ∧
  (handle r1 (step r2 σ)).1 = (handle r1 σ).1 ∧
  step r2 (step r1 σ) = step r1 (step r2 σ).
Proof.
  intros Ht1 Ht2 Hne.
  assert (step r1 σ !! n2 = σ !! n2) as H12 by (by eapply step_other).
  assert (step r2 σ !! n1 = σ !! n1) as H21 by (by eapply step_other).
  split_and!.
  - by apply (handle_local r2 _ _ n2).
  - by apply (handle_local r1 _ _ n1).
  - apply map_eq. intros k.
    destruct (decide (k = n1)) as [->|Hk1]; [|destruct (decide (k = n2)) as [->|Hk2]].
    + rewrite (step_other r2 _ n2 n1 Ht2 Hne).
      by apply (handle_local r1 _ _ n1).
    + rewrite (step_other r1 (step r2 σ) n1 n2 Ht1); [|done].
      symmetry. by apply (handle_local r2 _ _ n2).
    + rewrite (step_other r2 _ n2 k Ht2 Hk2), (step_other r1 _ n1 k Ht1 Hk1).
      by rewrite (step_other r1 _ n1 k Ht1 Hk1), (step_other r2 _ n2 k Ht2 Hk2).
Qed.

Lemma different_activities_commute_witness :
  (handle (PostSignup "Gym Class" "multisignup@mergington.edu")
     (step (PostSignup "Chess Club" "multisignup@mergington.edu") activities)).1 =
    (handle (PostSignup "Gym Class" "multisignup@mergington.edu") activities).1 ∧
  (handle (PostSignup "Chess Club" "multisignup@mergington.edu")
     (step (PostSignup "Gym Class" "multisignup@mergington.edu") activities)).1 =
    (handle (PostSignup "Chess Club" "multisignup@mergington.edu") activities).1 ∧
  step (PostSignup "Gym Class" "multisignup@mergington.edu")
    (step (PostSignup "Chess Club" "multisignup@mergington.edu") activities) =
  step (PostSignup "Chess Club" "multisignup@mergington.edu")
    (step (PostSignup "Gym Class" "multisignup@mergington.edu") activities).
Proof.
  apply (different_activities_commute activities
           (PostSignup "Chess Club" "multisignup@mergington.edu")
           (PostSignup "Gym Class" "multisignup@mergington.edu")
           "Chess Club" "Gym Class").
  - reflexivity.
  - reflexivity.
  - discriminate.
Defined.

(** X6. The catalogue never changes while the service runs: in every
    dictionary it can reach, the names are exactly those of the seed data,
    and each record still has the description, schedule and capacity it
    was seeded with. *)
Theorem reachable_keeps_catalogue (σ : gmap string Activity) :
  reachable σ →
  dom σ = dom activities ∧
  (∀ k a0, activities !! k = Some a0 →
     ∃ a, σ !! k = Some a ∧ same_static a0 a).
Proof.
  induction 1 as [|r σ _ [IHdom IHrec]].
  - split; [done|]. intros k a0 Hk. by exists a0.
  - split.
    + rewrite <- IHdom. apply set_eq. intros k.
      rewrite !elem_of_dom, <- !not_eq_None_Some. split.
      * intros Hn Hk. by apply Hn, step_keeps_absent.
      * intros Hn Hk. destruct (σ !! k) as [a|] eqn:Hs; [|done].
        destruct (step_keeps_record r σ k a Hs) as (a' & Ha' & _). congruence.
    + intros k a0 Hk. destruct (IHrec _ _ Hk) as (a & Ha & Hst).
      destruct (step_keeps_record r σ k a Ha) as (a' & Ha' & Hst').
      exists a'. split; [done|]. by eapply same_static_trans.
Qed.

Lemma reachable_keeps_catalogue_witness :
  dom (step (DeleteParticipant "Chess Club" "michael@mergington.edu")
         (step (PostSignup "Tennis Club" "testuser@mergington.edu") activities)) =
    dom activities.
Proof.
  apply (reachable_keeps_catalogue
           (step (DeleteParticipant "Chess Club" "michael@mergington.edu")
              (step (PostSignup "Tennis Club" "testuser@mergington.edu") activities))).
  apply reachable_step, reachable_step, reachable_seed.
Defined.

(** X7. Signing up a list of distinct new emails for one activity, one
    request after the other, fills the free seats in the order of the
    list and refuses everyone after that: the first [free_seats] emails
    are signed up and appended to the roster in order, each later one
    gets 400 "This activity is full". *)
Theorem signup_each_fills_to_capacity
    (name : string) (es : list string) (σ : gmap string Activity) (a : Activity) :
  σ !! name = Some a →
  NoDup es →
  (∀ e, e ∈ es → e ∉ participants a) →
  ∃ σ' a',
    signup_each name es σ =
      ((signed_up name <$> take (free_seats a) es) ++
         replicate (length es - free_seats a) (Raise CapacityExceeded),
       σ') ∧
    σ' !! name = Some a' ∧
    participants a' = participants a ++ take (free_seats a) es ∧
    same_static a a'.
Proof.
  revert σ a. induction es as [|e es IH]; intros σ a Hs Hnd Hfresh.
  - exists σ, a. simpl. rewrite take_nil.
    split_and!; [reflexivity|done|by rewrite app_nil_r|by unfold same_static].
  - apply NoDup_cons in Hnd as [He Hnd]. simpl.
    rewrite (signup_known _ _ _ _ Hs).
    assert (PyList.contains e (participants a) = false) as ->.
    { apply contains_false, Hfresh. left. }
    destruct (Z.geb_spec (PyList.len (participants a)) (max_participants a))
      as [Hfull|Hroom].
    + assert (free_seats a = 0%nat) as Hz by (unfold free_seats; lia).
      destruct (IH σ a Hs Hnd) as (σ' & a' & Hrun & Hs' & Hps & Hst).
      { intros x Hx. apply Hfresh. by right. }
      rewrite Hrun. exists σ', a'. rewrite Hz in *. simpl in *.
      rewrite Nat.sub_0_r in *. by split_and!.
    + set (a1 := with_participants a (participants a ++ [e])).
      assert (free_seats a = S (free_seats a1)) as Hz.
      { unfold free_seats, a1, PyList.len. simpl. rewrite length_app. simpl.
        unfold PyList.len in Hroom. lia. }
      destruct (IH (<[name := a1]> σ) a1) as (σ' & a' & Hrun & Hs' & Hps & Hst).
      * apply lookup_insert_eq.
      * done.
      * intros x Hx. simpl. rewrite not_elem_of_app. split.
        -- apply Hfresh. by right.
        -- intros ->%list_elem_of_singleton. done.
      * rewrite Hrun. exists σ', a'. rewrite Hz. simpl.
        split_and!; [done|done| |done].
        rewrite Hps. simpl. by rewrite <- app_assoc.
Qed.

Lemma signup_each_fills_to_capacity_witness :
  ∃ σ' a',
    signup_each "Duo" ["cy@mergington.edu"; "di@mergington.edu"; "ed@mergington.edu"]
      (<["Duo" := mkActivity "Two seats" "Never" 2 ["ann@mergington.edu"]]> full_house) =
      ([signed_up "Duo" "cy@mergington.edu";
        Raise CapacityExceeded; Raise CapacityExceeded], σ') ∧
    σ' !! "Duo" = Some a' ∧
    participants a' = ["ann@mergington.edu"; "cy@mergington.edu"].
Proof.
  destruct (signup_each_fills_to_capacity "Duo"
              ["cy@mergington.edu"; "di@mergington.edu"; "ed@mergington.edu"]
              (<["Duo" := mkActivity "Two seats" "Never" 2 ["ann@mergington.edu"]]>
                 full_house)
              (mkActivity "Two seats" "Never" 2 ["ann@mergington.edu"]))
    as (σ' & a' & Hrun & Hs' & Hps & _).
  - reflexivity.
  - apply (bool_decide_unpack _). by vm_compute.
  - intros e He. apply (bool_decide_unpack _).
    apply elem_of_cons in He as [->|He]; [by vm_compute|].
    apply elem_of_cons in He as [->|He]; [by vm_compute|].
    apply elem_of_cons in He as [->|He]; [by vm_compute|].
    by apply elem_of_nil in He.
  - exists σ', a'. split_and!; [exact Hrun|exact Hs'|exact Hps].
Defined.

Section fixture_facts.
Implicit Types (σ : gmap string Activity) (a d : Activity).
Implicit Types (items : list (string * Activity)).

(** The snapshot is a copy: equal to the dictionary it was taken from. *)
Lemma original_state_copy σ : original_state σ = σ.
Proof.
  apply map_eq. intros k. unfold original_state. rewrite lookup_fmap.
  destruct (σ !! k) as [[? ? ? ?]|]; done.
Qed.

Lemma restore_cons name d items σ :
  restore ((name, d) :: items) σ =
    match σ !! name with
    | Some a => restore items (<[name := with_participants a (participants d)]> σ)
    | None => (Raise (KeyError name), σ)
    end.
Proof.
  simpl. unfold mbind, handler_bind, bind, set_participants.
  by destruct (σ !! name).
Qed.

Lemma same_static_with_participants a ps : same_static a (with_participants a ps).
Proof. by unfold same_static. Qed.

Lemma same_static_rebuild a d :
  same_static d a → with_participants a (participants d) = d.
Proof. destruct a, d. unfold same_static. simpl. by intros (-> & -> & ->). Qed.

(** With every key present and no key listed twice, the loop runs to its
    end, gives each listed record the listed roster and leaves the other
    entries alone. *)
Lemma restore_present items :
  ∀ σ,
    NoDup items.*1 →
    (∀ k, k ∈ items.*1 → is_Some (σ !! k)) →
    ∃ σ',
      restore items σ = (Return (), σ') ∧
      (∀ k d, (k, d) ∈ items →
         ∃ a, σ !! k = Some a ∧
              σ' !! k = Some (with_participants a (participants d))) ∧
      (∀ k, k ∉ items.*1 → σ' !! k = σ !! k).
Proof.
  induction items as [|[n d] items IH]; intros σ Hnd Hkeys.
  - exists σ. split_and!; [done| |done]. intros k d Hin. by apply elem_of_nil in Hin.
  - simpl in Hnd. apply NoDup_cons in Hnd as [Hn Hnd].
    destruct (Hkeys n) as [a Ha]; [simpl; left|].
    rewrite restore_cons, Ha.
    destruct (IH (<[n := with_participants a (participants d)]> σ) Hnd)
      as (σ' & Hrun & Hlisted & Hrest).
    { intros k Hk. apply lookup_insert_is_Some.
      destruct (decide (n = k)); [by left|right]. split; [done|].
      apply Hkeys. simpl. by right. }
    exists σ'. split_and!; [done| |].
    + intros k d' [[= -> ->]|Hin]%elem_of_cons.
      * exists a. split; [done|]. rewrite (Hrest _ Hn). apply lookup_insert_eq.
      * assert (k ≠ n) as Hne.
        { intros ->. apply Hn. apply list_elem_of_fmap. by exists (n, d'). }
        destruct (Hlisted _ _ Hin) as (a' & Ha' & Hσ').
        rewrite lookup_insert_ne in Ha' by done. by exists a'.
    + intros k Hk. simpl in Hk. apply not_elem_of_cons in Hk as [Hne Hk].
      rewrite (Hrest _ Hk). by rewrite lookup_insert_ne.
Qed.

End fixture_facts.

(** X8. The [reset_activities] fixture undoes a test. Take the snapshot
    of any dictionary, let a client send any requests, then run the
    restore loop over the snapshot's items (in whatever order the loop
    visits them): the loop raises no [KeyError] and the dictionary is
    exactly the one the snapshot was taken from. *)
Theorem reset_activities_round_trip
    (σ : gmap string Activity) (rs : list request)
    (items : list (string * Activity)) :
  items ≡ₚ map_to_list (original_state σ) →
  restore items (run_requests rs σ) = (Return (), σ).
Proof.
  intros Hitems. rewrite original_state_copy in Hitems.
  assert (∀ k d, (k, d) ∈ items ↔ σ !! k = Some d) as Hin.
  { intros k d. rewrite Hitems. apply elem_of_map_to_list. }
  destruct (restore_present items (run_requests rs σ)) as (σ' & -> & Hlisted & Hrest).
  - rewrite Hitems. apply NoDup_fst_map_to_list.
  - intros k ([k' d] & -> & Hkd%Hin)%list_elem_of_fmap. simpl.
    destruct (run_requests_keeps_record rs σ k' d Hkd) as (a' & -> & _). by eexists.
  - f_equal. apply map_eq. intros k.
    destruct (σ !! k) as [d|] eqn:Hk.
    + destruct (Hlisted k d) as (a & Ha & ->); [by apply Hin|].
      destruct (run_requests_keeps_record rs σ k d Hk) as (a' & Ha' & Hst).
      rewrite Ha in Ha'. injection Ha' as <-.
      by rewrite same_static_rebuild.
    + rewrite Hrest.
      * by apply run_requests_keeps_absent.
      * intros ([k' d] & -> & Hkd%Hin)%list_elem_of_fmap. simpl in Hk. congruence.
Qed.

Lemma reset_activities_round_trip_witness :
  restore (map_to_list (original_state activities))
    (run_requests
       [PostSignup "Programming Class" "integration@mergington.edu";
        GetActivities;
        DeleteParticipant "Chess Club" "michael@mergington.edu";
        PostSignup "Chess Club" "michael@mergington.edu"]
       activities) =
    (Return (), activities).
Proof.
  apply (reset_activities_round_trip activities
           [PostSignup "Programming Class" "integration@mergington.edu";
            GetActivities;
            DeleteParticipant "Chess Club" "michael@mergington.edu";
            PostSignup "Chess Club" "michael@mergington.edu"]
           (map_to_list (original_state activities))).
  reflexivity.
Defined.

(** X9. The restore loop repairs rosters and nothing else. It runs to its
    end exactly when every listed name is still a key of the dictionary;
    otherwise it stops with the [KeyError] of a listed name that is
    missing. Either way it adds and removes no key and leaves every
    record's description, schedule and capacity as they are. *)
Theorem restore_only_rosters
    (items : list (string * Activity)) (σ : gmap string Activity) :
  (is_Return (restore items σ).1 ↔ ∀ k, k ∈ items.*1 → is_Some (σ !! k)) ∧
  (∀ e, (restore items σ).1 = Raise e →
     ∃ k, e = KeyError k ∧ k ∈ items.*1 ∧ σ !! k = None) ∧
  (∀ k, (restore items σ).2 !! k = None ↔ σ !! k = None) ∧
  (∀ k a, σ !! k = Some a →
     ∃ a', (restore items σ).2 !! k = Some a' ∧ same_static a a').
Proof.
  revert σ. induction items as [|[n d] items IH]; intros σ.
  - simpl. split_and!.
    + split; [|done]. intros _ k Hk. by apply elem_of_nil in Hk.
    + intros e He. discriminate.
    + done.
    + intros k a Hk. exists a. by unfold same_static.
  - rewrite restore_cons. destruct (σ !! n) as [a|] eqn:Hn.
    + set (σ1 := <[n := with_participants a (participants d)]> σ).
      destruct (IH σ1) as (IHret & IHraise & IHnone & IHrec).
      assert (∀ k, is_Some (σ1 !! k) ↔ is_Some (σ !! k)) as Hsome.
      { intros k. unfold σ1. rewrite lookup_insert_is_Some.
        destruct (decide (n = k)) as [->|]; [|tauto].
        rewrite Hn. split; [by eexists|by left]. }
      assert (∀ k, σ1 !! k = None ↔ σ !! k = None) as Hnone.
      { intros k. rewrite !eq_None_not_Some. by rewrite Hsome. }
      split_and!.
      * rewrite IHret. simpl. split.
        -- intros Hall k [->|Hk]%elem_of_cons; [by eexists|].
           by apply Hsome, Hall.
        -- intros Hall k Hk. apply Hsome, Hall. by right.
      * intros e He. destruct (IHraise e He) as (k & -> & Hk & Hk1).
        exists k. split_and!; [done|simpl; by right|by apply Hnone].
      * intros k. by rewrite IHnone.
      * intros k b Hk.
        assert (∃ b1, σ1 !! k = Some b1 ∧ same_static b b1) as (b1 & Hb1 & Hst1).
        { unfold σ1. destruct (decide (n = k)) as [->|Hne].
          - rewrite lookup_insert_eq. rewrite Hn in Hk. injection Hk as <-.
            eexists. split; [done|]. by unfold same_static.
          - rewrite lookup_insert_ne by done. exists b. by unfold same_static. }
        destruct (IHrec _ _ Hb1) as (b' & Hb' & Hst').
        exists b'. split; [done|]. by eapply same_static_trans.
    + simpl. split_and!.
      * split; [done|]. intros Hall. destruct (Hall n) as [? ?]; [by left|congruence].
      * intros e [= <-]. exists n. split_and!; [done|by left|done].
      * done.
      * intros k b Hk. exists b. by unfold same_static.
Qed.

Lemma restore_only_rosters_witness :
  (restore [("Chess Club", mkActivity "n/a" "n/a" 0 []); ("Knitting", mkActivity "n/a" "n/a" 0 [])]
     activities).1 = Raise (KeyError "Knitting") ∧
  participants <$>
    (restore [("Chess Club", mkActivity "n/a" "n/a" 0 []); ("Knitting", mkActivity "n/a" "n/a" 0 [])]
       activities).2 !! "Chess Club" = Some [] ∧
  ∃ a', (restore [("Chess Club", mkActivity "n/a" "n/a" 0 []);
                  ("Knitting", mkActivity "n/a" "n/a" 0 [])] activities).2
          !! "Chess Club" = Some a' ∧
        same_static
          (mkActivity "Learn strategies and compete in chess tournaments"
             "Fridays, 3:30 PM - 5:00 PM" 12
             ["michael@mergington.edu"; "daniel@mergington.edu"]) a'.
Proof.
  split_and!; [reflexivity|reflexivity|].
  apply (proj2 (proj2 (proj2 (restore_only_rosters
           [("Chess Club", mkActivity "n/a" "n/a" 0 []); ("Knitting", mkActivity "n/a" "n/a" 0 [])]
           activities))) "Chess Club").
  reflexivity.
Defined.

(** X10. Nobody is added or dropped by somebody else's request. Across
    any single request, an email on the roster of an activity stays on it
    unless the request is the unregister of that very email from that
    activity, and an email off the roster stays off unless the request is
    the signup of that very email for that activity. *)
Theorem membership_changes_only_on_request
    (σ : gmap string Activity) (r : request) (k x : string) (a : Activity) :
  σ !! k = Some a →
  ∃ a',
    step r σ !! k = Some a' ∧
    (x ∈ participants a → r ≠ DeleteParticipant k x → x ∈ participants a') ∧
    (x ∉ participants a → r ≠ PostSignup k x → x ∉ participants a').
Proof.
  intros Hk. destruct r as [| |n e|n e]; simpl.
  - by exists a.
  - by exists a.
  - destruct (signup_lookup σ n e k) as [->|(-> & a0 & Ha0 & _ & _ & ->)].
    + by exists a.
    + rewrite Hk in Ha0. injection Ha0 as <-. eexists. split; [done|]. simpl.
      split.
      * intros Hx _. apply elem_of_app. by left.
      * intros Hx Hne [Hin|Hin%list_elem_of_singleton]%elem_of_app; [done|].
        congruence.
  - destruct (unregister_lookup σ n e k) as [->|(-> & a0 & ps & Ha0 & Hr & ->)].
    + by exists a.
    + rewrite Hk in Ha0. injection Ha0 as <-. eexists. split; [done|]. simpl.
      pose proof (remove_Permutation _ _ _ Hr) as Hperm. split.
      * intros Hx Hne. rewrite Hperm in Hx.
        apply elem_of_cons in Hx as [->|Hx]; [congruence|done].
      * intros Hx _ Hin. apply Hx. rewrite Hperm. by right.
Qed.

Lemma membership_changes_only_on_request_witness :
  ∃ a',
    step (DeleteParticipant "Chess Club" "michael@mergington.edu") activities
      !! "Chess Club" = Some a' ∧
    "daniel@mergington.edu" ∈ participants a'.
Proof.
  destruct (membership_changes_only_on_request activities
              (DeleteParticipant "Chess Club" "michael@mergington.edu")
              "Chess Club" "daniel@mergington.edu"
              (mkActivity "Learn strategies and compete in chess tournaments"
                 "Fridays, 3:30 PM - 5:00 PM" 12
                 ["michael@mergington.edu"; "daniel@mergington.edu"]))
    as (a' & Ha' & Hstay & _).
  - reflexivity.
  - exists a'. split; [exact Ha'|]. apply Hstay.
    + apply (bool_decide_unpack _). by vm_compute.
    + discriminate.
Defined.
